(** * Gaestebuch backend: a shallow embedding of [index.js]

    The guestbook backend is an Express application over one SQLite table
    ([entries]) with an optional e-mail notification.  This development
    embeds the request handlers, the prepared statements, the text helpers
    ([cleanText], [escapeHtml]), the admin gate ([requireAdmin]) and the
    notifier ([sendModerationMail]) as Rocq functions with explicit state
    passing, and proves the properties of the moderation workflow. *)

From Stdlib Require Import String Ascii.
From Stdlib Require Import ZArith NArith List Bool Lia.
From Stdlib Require Import Sorting.Sorted Permutation.
From Stdlib Require Import Floats.SpecFloat.
From Stdlib Require Import Numbers.DecimalString.
From Equations Require Import Equations.
Import ListNotations.

(** ** JavaScript strings

    A JavaScript string is a sequence of UTF-16 code units; [length],
    [slice] and the regular expressions of the source all count code
    units. *)

Definition codeunit := N.
Definition jsstring := list codeunit.

(** An ASCII literal of the source as a sequence of code units. *)
Definition lit (s : string) : jsstring :=
  map N_of_ascii (list_ascii_of_string s).
Arguments lit s%_string.

Definition SPACE : codeunit := 32%N.

Definition codeunit_eq_dec : forall a b : codeunit, {a = b} + {a <> b} := N.eq_dec.
Definition jsstring_eq_dec : forall a b : jsstring, {a = b} + {a <> b} :=
  list_eq_dec codeunit_eq_dec.

Definition jsstring_eqb (a b : jsstring) : bool :=
  if jsstring_eq_dec a b then true else false.

(** ECMAScript WhiteSpace and LineTerminator code points: the characters
    removed by [String.prototype.trim] and matched by the class [\s]. *)
Definition isWhiteSpace (c : codeunit) : bool :=
  ((9 <=? c) && (c <=? 13) || (c =? 32) || (c =? 160) || (c =? 5760)
   || (8192 <=? c) && (c <=? 8202) || (c =? 8232) || (c =? 8233)
   || (c =? 8239) || (c =? 8287) || (c =? 12288) || (c =? 65279))%N.

(** [String.prototype.trimStart], [trimEnd] and [trim]. *)
Fixpoint trimStart (s : jsstring) : jsstring :=
  match s with
  | [] => []
  | c :: r => if isWhiteSpace c then trimStart r else s
  end.

Definition trimEnd (s : jsstring) : jsstring := rev (trimStart (rev s)).

Definition trim (s : jsstring) : jsstring := trimEnd (trimStart s).

(** [s.replace(/\s+/g, " ")]: the global regular expression is matched
    from left to right; at a whitespace character the greedy [\s+]
    consumes the whole run, which is replaced by one space, and the scan
    resumes after the run; any other character is copied. *)
Equations? replaceWsRuns (s : jsstring) : jsstring by wf (length s) lt :=
  replaceWsRuns [] := [];
  replaceWsRuns (c :: r) with isWhiteSpace c := {
    | true => SPACE :: replaceWsRuns (trimStart r)
    | false => c :: replaceWsRuns r }.
Proof.
  clear replaceWsRuns. simpl. apply Nat.lt_succ_r.
  induction r as [|d r IH]; simpl; [lia|].
  destruct (isWhiteSpace d); simpl; lia.
Qed.

(** [s.slice(0, maxLen)] for a non-negative integer [maxLen]. *)
Definition slice0 (maxLen : nat) (s : jsstring) : jsstring := firstn maxLen s.

(** ** JavaScript values of a parsed JSON body

    [req.body?.name] is [undefined] when the body or the field is missing,
    and otherwise any JSON value.  Only [ToBoolean] and [ToString] of the
    value are observed by the source, so a number is given by whether it is
    non-zero and by its rendering, and an array or object by its rendering
    (both are always truthy). *)
Inductive JsVal : Type :=
| VUndefined
| VNull
| VBool (b : bool)
| VNumber (nonzero : bool) (shown : jsstring)
| VString (s : jsstring)
| VObject (shown : jsstring).

Definition isEmpty (s : jsstring) : bool :=
  match s with [] => true | _ => false end.

Definition ToBoolean (v : JsVal) : bool :=
  match v with
  | VUndefined | VNull => false
  | VBool b => b
  | VNumber nz _ => nz
  | VString s => negb (isEmpty s)
  | VObject _ => true
  end.

Definition ToString (v : JsVal) : jsstring :=
  match v with
  | VUndefined => lit "undefined"
  | VNull => lit "null"
  | VBool true => lit "true"
  | VBool false => lit "false"
  | VNumber _ shown => shown
  | VString s => s
  | VObject shown => shown
  end.

(** [a || b] *)
Definition js_or (a b : JsVal) : JsVal := if ToBoolean a then a else b.

(** [cleanText(str, maxLen)] *)
Definition cleanText (str : JsVal) (maxLen : nat) : jsstring :=
  let s := trim (ToString (js_or str (VString []))) in
  if isEmpty s then []
  else slice0 maxLen (replaceWsRuns s).

(** ** JavaScript numbers

    A Number is an IEEE 754 binary64 value, here a [spec_float] of the
    Standard Library with 53 bits of precision. *)

Definition JsNumber := spec_float.

Definition prec64 : Z := 53.
Definition emax64 : Z := 1024.

Definition NaN : JsNumber := S754_nan.

(** The Number value for the integer [m * 2 ^ e] (round to nearest, ties
    to even). *)
Definition roundInteger (m : Z) : JsNumber :=
  binary_normalize prec64 emax64 m 0 false.

(** The Number value for the decimal [(-1)^neg * m * 10 ^ k]. *)
Definition roundDecimal (neg : bool) (m : Z) (k : Z) : JsNumber :=
  match m with
  | Zpos p =>
      if (0 <=? k)%Z
      then binary_normalize prec64 emax64
             (if neg then Z.opp (m * 10 ^ k) else m * 10 ^ k)%Z 0 false
      else SFdiv prec64 emax64 (S754_finite neg p 0)
             (S754_finite false (Z.to_pos (10 ^ (- k))) 0)
  | _ => S754_zero neg
  end.

(** [!x] on a Number: NaN, +0 and -0 are the falsy numbers. *)
Definition numberIsFalsy (x : JsNumber) : bool :=
  match x with
  | S754_nan | S754_zero _ => true
  | _ => false
  end.

(** Whether the Number [x] is numerically equal to the integer [z]: the
    comparison [id = @id] of SQLite between an INTEGER PRIMARY KEY and a
    bound JavaScript number. *)
Definition numberEqInteger (x : JsNumber) (z : Z) : bool :=
  match x with
  | S754_zero _ => (z =? 0)%Z
  | S754_finite s m e =>
      let v := if s then Zneg m else Zpos m in
      if (0 <=? e)%Z then (z =? v * 2 ^ e)%Z
      else ((v mod 2 ^ (- e) =? 0) && (z =? v / 2 ^ (- e)))%Z
  | _ => false
  end.

(** *** StringToNumber

    The grammar StringNumericLiteral of ECMAScript: optional white space
    around a decimal literal (optional sign; [Infinity]; digits with an
    optional fraction and exponent) or an unsigned binary, octal or
    hexadecimal integer literal.  The empty literal is +0; anything else
    is NaN. *)

Definition isDigit (c : codeunit) : bool := ((48 <=? c) && (c <=? 57))%N.

(** Value of a digit in a base up to 16, if it is one. *)
Definition digitOfBase (base : N) (c : codeunit) : option Z :=
  let v := (if (48 <=? c) && (c <=? 57) then Some (c - 48)
            else if (97 <=? c) && (c <=? 102) then Some (c - 87)
            else if (65 <=? c) && (c <=? 70) then Some (c - 55)
            else None)%N in
  match v with
  | Some d => if (d <? base)%N then Some (Z.of_N d) else None
  | None => None
  end.

Fixpoint spanDigits (s : jsstring) : jsstring * jsstring :=
  match s with
  | c :: r =>
      if isDigit c then let (ds, rest) := spanDigits r in (c :: ds, rest)
      else ([], s)
  | [] => ([], [])
  end.

Definition digitsValue (ds : jsstring) : Z :=
  fold_left (fun acc c => 10 * acc + Z.of_N (c - 48))%Z ds 0%Z.

(** Digits of a non-decimal literal: all characters must be digits of the
    base, and there is at least one. *)
Fixpoint radixValue (base : N) (acc : Z) (s : jsstring) : option Z :=
  match s with
  | [] => Some acc
  | c :: r =>
      match digitOfBase base c with
      | Some d => radixValue base (Z.of_N base * acc + d)%Z r
      | None => None
      end
  end.

Definition parseNonDecimal (s : jsstring) : option Z :=
  match s with
  | 48%N :: p :: ((_ :: _) as ds) =>
      if ((p =? 120) || (p =? 88))%N then radixValue 16 0 ds
      else if ((p =? 111) || (p =? 79))%N then radixValue 8 0 ds
      else if ((p =? 98) || (p =? 66))%N then radixValue 2 0 ds
      else None
  | _ => None
  end.

(** ExponentPart_opt at the end of the literal: the decimal exponent. *)
Definition parseExponent (s : jsstring) : option Z :=
  match s with
  | [] => Some 0%Z
  | c :: r =>
      if ((c =? 101) || (c =? 69))%N then
        let (neg, r') :=
          match r with
          | 43%N :: t => (false, t)
          | 45%N :: t => (true, t)
          | _ => (false, r)
          end in
        match spanDigits r' with
        | ((_ :: _) as ds, []) =>
            Some (if neg then (- digitsValue ds)%Z else digitsValue ds)
        | _ => None
        end
      else None
  end.

(** StrUnsignedDecimalLiteral without the [Infinity] case: mantissa and
    decimal exponent. *)
Definition parseUnsignedDecimal (s : jsstring) : option (Z * Z) :=
  let (ip, r1) := spanDigits s in
  let '(fp, r2, dotted) :=
    match r1 with
    | 46%N :: t => let (fp, r2) := spanDigits t in (fp, r2, true)
    | _ => ([], r1, false)
    end in
  if isEmpty ip && isEmpty fp then None
  else
    match parseExponent r2 with
    | Some e => Some (digitsValue (ip ++ fp), (e - Z.of_nat (length fp))%Z)
    | None => None
    end.

Definition parseStrDecimal (s : jsstring) : JsNumber :=
  let (neg, u) :=
    match s with
    | 43%N :: t => (false, t)
    | 45%N :: t => (true, t)
    | _ => (false, s)
    end in
  if jsstring_eqb u (lit "Infinity") then S754_infinity neg
  else
    match parseUnsignedDecimal u with
    | Some (m, k) => roundDecimal neg m k
    | None => NaN
    end.

Definition StringToNumber (s : jsstring) : JsNumber :=
  let t := trim s in
  if isEmpty t then S754_zero false
  else
    match parseNonDecimal t with
    | Some m => roundInteger m
    | None => parseStrDecimal t
    end.

(** ** Text helpers *)

Definition DQ : jsstring := [34%N].
Definition NL : jsstring := [10%N].

(** [s.replaceAll(pattern, replacement)] for a one-character pattern and a
    replacement without [$]: the only form the source uses. *)
Definition replaceAll (pattern : codeunit) (replacement : jsstring)
    (s : jsstring) : jsstring :=
  flat_map (fun c => if (c =? pattern)%N then replacement else [c]) s.

(** [escapeHtml(str)] on a string: five passes, the ampersand first. *)
Definition escapeHtml (str : jsstring) : jsstring :=
  replaceAll 39%N (lit "&#039;")
    (replaceAll 34%N (lit "&quot;")
      (replaceAll 62%N (lit "&gt;")
        (replaceAll 60%N (lit "&lt;")
          (replaceAll 38%N (lit "&amp;") str)))).

(** [encodeURIComponent]: characters outside the unreserved set are
    written as the percent-encoded bytes of their UTF-8 form; a lone
    surrogate raises a URIError, here [None]. *)
Definition isUriUnreserved (c : codeunit) : bool :=
  ((48 <=? c) && (c <=? 57) || (65 <=? c) && (c <=? 90)
   || (97 <=? c) && (c <=? 122)
   || existsb (N.eqb c) [45; 95; 46; 33; 126; 42; 39; 40; 41])%N.

Definition hexDigitUpper (n : N) : codeunit :=
  (if n <? 10 then 48 + n else 55 + n)%N.

Definition percentByte (b : N) : jsstring :=
  [37%N; hexDigitUpper (b / 16); hexDigitUpper (b mod 16)].

Definition utf8 (cp : N) : list N :=
  (if cp <? 128 then [cp]
   else if cp <? 2048 then [192 + cp / 64; 128 + cp mod 64]
   else if cp <? 65536 then
     [224 + cp / 4096; 128 + (cp / 64) mod 64; 128 + cp mod 64]
   else [240 + cp / 262144; 128 + (cp / 4096) mod 64;
         128 + (cp / 64) mod 64; 128 + cp mod 64])%N.

Definition isHighSurrogate (c : codeunit) : bool :=
  ((55296 <=? c) && (c <=? 56319))%N.
Definition isLowSurrogate (c : codeunit) : bool :=
  ((56320 <=? c) && (c <=? 57343))%N.

Fixpoint encodeURIComponent (s : jsstring) : option jsstring :=
  match s with
  | [] => Some []
  | c :: r =>
      if isUriUnreserved c then option_map (cons c) (encodeURIComponent r)
      else if isLowSurrogate c then None
      else if isHighSurrogate c then
        match r with
        | d :: r' =>
            if isLowSurrogate d then
              let cp := ((c - 55296) * 1024 + (d - 56320) + 65536)%N in
              option_map (app (flat_map percentByte (utf8 cp)))
                         (encodeURIComponent r')
            else None
        | [] => None
        end
      else option_map (app (flat_map percentByte (utf8 c)))
                      (encodeURIComponent r)
  end.

(** A row id interpolated into a template string: its decimal form. *)
Definition decimalOfZ (z : Z) : jsstring :=
  lit (NilZero.string_of_int (Z.to_int z)).

(** ** The entry store

    The table [entries]: [id INTEGER PRIMARY KEY AUTOINCREMENT], three
    text columns and the status, which only ever takes the three values
    the statements write. *)

Inductive Status : Type := pending | approved | rejected.

Definition Status_eqb (a b : Status) : bool :=
  match a, b with
  | pending, pending | approved, approved | rejected, rejected => true
  | _, _ => false
  end.

Module Entry.
Record t : Type := mk {
  id : Z;
  name : jsstring;
  message : jsstring;
  status : Status;
  created_at : jsstring }.

Definition with_status (st : Status) (e : t) : t :=
  mk (id e) (name e) (message e) st (created_at e).
End Entry.

(** A row of the public listing: the four selected columns. *)
Module PublicRow.
Record t : Type := mk {
  id : Z;
  name : jsstring;
  message : jsstring;
  created_at : jsstring }.

Definition of_entry (e : Entry.t) : t :=
  mk (Entry.id e) (Entry.name e) (Entry.message e) (Entry.created_at e).
End PublicRow.

(** The database: the rows of [entries] and the counter that SQLite keeps
    in [sqlite_sequence] for the AUTOINCREMENT column. *)
Record Db : Type := mkDb {
  entries : list Entry.t;
  sqlite_sequence : Z }.

(** The database file as [CREATE TABLE IF NOT EXISTS] makes it. *)
Definition emptyDb : Db := mkDb [] 0.

(** [ORDER BY id DESC] *)
Fixpoint insertByIdDesc (e : Entry.t) (l : list Entry.t) : list Entry.t :=
  match l with
  | [] => [e]
  | x :: r =>
      if (Entry.id x <=? Entry.id e)%Z then e :: l
      else x :: insertByIdDesc e r
  end.

Definition orderByIdDesc (l : list Entry.t) : list Entry.t :=
  fold_right insertByIdDesc [] l.

Definition whereStatus (st : Status) (l : list Entry.t) : list Entry.t :=
  filter (fun e => Status_eqb (Entry.status e) st) l.

(** The largest rowid that ever existed in the table: the larger of the
    AUTOINCREMENT counter and the ids present. *)
Definition largestRowid (db : Db) : Z :=
  fold_right Z.max (sqlite_sequence db) (map Entry.id (entries db)).

(** [stmtInsert.run({name, message, created_at})]: the new rowid is one
    more than the largest rowid that ever existed in the table; the result
    carries [lastInsertRowid]. *)
Definition stmtInsert (db : Db) (name message created_at : jsstring)
    : Db * Z :=
  let rowid := (largestRowid db + 1)%Z in
  (mkDb (entries db ++ [Entry.mk rowid name message pending created_at])
        rowid,
   rowid).

(** [stmtApproved.all()] *)
Definition stmtApproved (db : Db) : list PublicRow.t :=
  map PublicRow.of_entry
      (firstn 50 (orderByIdDesc (whereStatus approved (entries db)))).

(** [stmtPending.all()] *)
Definition stmtPending (db : Db) : list Entry.t :=
  orderByIdDesc (whereStatus pending (entries db)).

(** [stmtSetStatus.run({id, status})] with a JavaScript number as [id]. *)
Definition stmtSetStatus (db : Db) (id : JsNumber) (st : Status) : Db :=
  mkDb (map (fun e => if numberEqInteger id (Entry.id e)
                      then Entry.with_status st e else e)
            (entries db))
       (sqlite_sequence db).

(** ** Configuration and the mail collaborator *)

(** The constants derived from the environment at start-up, and the three
    SMTP variables that [hasSmtp] reads ([None] for an unset variable). *)
Record Config : Type := mkConfig {
  PUBLIC_BASE_URL : jsstring;
  ADMIN_TOKEN : jsstring;
  MAIL_TO : jsstring;
  MAIL_FROM : jsstring;
  SMTP_HOST : option jsstring;
  SMTP_USER : option jsstring;
  SMTP_PASS : option jsstring }.

Module Mail.
Record t : Type := mk {
  from : jsstring;
  to : jsstring;
  subject : jsstring;
  html : jsstring }.
End Mail.

(** An error object as the handler reads it: [e.code] and [e.message]. *)
Record JsError : Type := mkError {
  err_code : jsstring;
  err_message : jsstring }.

(** How an awaited call ends. *)
Inductive Completion : Type :=
| Fulfilled
| Rejected (e : JsError).

(** What a request finds outside the process: the clock behind [nowIso]
    and the mail transport behind [transporter.sendMail], which may
    deliver or fail for any message. *)
Record Ambient : Type := mkAmbient {
  nowIso : jsstring;
  sendMail : Mail.t -> Completion }.

(** Observable side effects of a handler besides the response. *)
Inductive Effect : Type :=
| MailDispatched (m : Mail.t)
| ConsoleLog (line : jsstring)
| ConsoleError (args : list jsstring).

(** ** Requests and responses *)

Record Request : Type := mkRequest {
  query_token : JsVal;
  query_id : JsVal;
  header_authorization : option jsstring;
  body_name : JsVal;
  body_message : JsVal }.

Inductive Body : Type :=
| JsonRows (rows : list PublicRow.t)
| JsonEntries (rows : list Entry.t)
| JsonOk (id : Z)
| JsonFail (error : jsstring)
| Text (s : jsstring).

Record Response : Type := mkResponse {
  statusCode : nat;
  body : Body }.

Record Outcome : Type := mkOutcome {
  db_after : Db;
  response : Response;
  effects : list Effect }.

Inductive Route : Type :=
| GET_api_entries
| POST_api_entries
| GET_admin_pending
| GET_admin_approve
| GET_admin_reject.

(** [Number(v)]: ToNumber.  An object or array is converted through its
    string form, a number is the value its rendering denotes. *)
Definition ToNumber (v : JsVal) : JsNumber :=
  match v with
  | VUndefined => NaN
  | VNull => S754_zero false
  | VBool b => if b then roundInteger 1 else S754_zero false
  | VNumber _ shown => StringToNumber shown
  | VString s => StringToNumber s
  | VObject shown => StringToNumber shown
  end.

Fixpoint startsWith (p s : jsstring) : bool :=
  match p, s with
  | [], _ => true
  | a :: p', b :: s' => (a =? b)%N && startsWith p' s'
  | _ :: _, [] => false
  end.

(** [v === str] for a string [str]. *)
Definition strictEqString (v : JsVal) (str : jsstring) : bool :=
  match v with
  | VString s => jsstring_eqb s str
  | _ => false
  end.

Definition envString (v : option jsstring) : jsstring :=
  match v with Some s => s | None => [] end.

Definition MAIL_SUBJECT : jsstring :=
  [55358%N; 56817%N] ++ lit " Neuer G" ++ [228%N] ++
  lit "stebuch-Eintrag (Freigabe n" ++ [246%N] ++ lit "tig)".

Definition TEXT_APPROVED : jsstring :=
  [9989%N] ++ lit " Freigegeben. Du kannst das Fenster schlie" ++
  [223%N] ++ lit "en.".

Definition TEXT_REJECTED : jsstring :=
  [55357%N; 56785%N; 65039%N] ++
  lit " Abgelehnt. Du kannst das Fenster schlie" ++ [223%N] ++ lit "en.".

Definition LOG_MAIL_SENT (id : Z) : jsstring :=
  [9993%N; 65039%N] ++ lit "  Moderations-Mail gesendet f" ++ [252%N] ++
  lit "r Eintrag #" ++ decimalOfZ id.

Definition tpl_head : jsstring :=
  NL ++ lit "<div style=" ++ DQ ++
  lit "font-family:system-ui,-apple-system,Segoe UI,Roboto,Ubuntu,C" ++
  lit "antarell,Noto Sans,sans-serif;font-size:14px;line-height:1.5" ++
  lit ";color:#111827" ++ DQ ++ lit ">" ++ NL ++ lit "  <h2 style=" ++ DQ ++
  lit "margin:0 0 10px 0;font-size:18px;" ++ DQ ++ lit ">" ++
  [55358%N; 56817%N] ++ lit " Neuer G" ++ [228%N] ++
  lit "stebuch-Eintrag (Freigabe n" ++ [246%N] ++ lit "tig)</h2>" ++ NL ++
  NL ++ lit "  <p style=" ++ DQ ++ lit "margin:0 0 10px 0;" ++ DQ ++
  lit ">" ++ NL ++
  lit "    Ein neuer Eintrag wurde eingereicht und wartet auf deine" ++
  lit " Freigabe." ++ NL ++ lit "  </p>" ++ NL ++ NL ++ lit "  <div style=" ++
  DQ ++ lit "border:1px solid #e5e7eb;border-radius:12px;padding:12px;bac" ++
  lit "kground:#f9fafb;margin:12px 0;" ++ DQ ++ lit ">" ++ NL ++
  lit "    <p style=" ++ DQ ++ lit "margin:0 0 6px 0;" ++ DQ ++
  lit "><strong>Name:</strong> ".

Definition tpl_after_name : jsstring :=
  lit "</p>" ++ NL ++ lit "    <p style=" ++ DQ ++ lit "margin:0 0 6px 0;" ++
  DQ ++ lit "><strong>Nachricht:</strong><br>".

Definition tpl_after_message : jsstring :=
  lit "</p>" ++ NL ++ lit "    <p style=" ++ DQ ++ lit "margin:0;" ++ DQ ++
  lit "><strong>Zeit:</strong> ".

Definition tpl_after_time : jsstring :=
  lit "</p>" ++ NL ++ lit "  </div>" ++ NL ++ NL ++ lit "  <p style=" ++ DQ ++
  lit "margin:14px 0 6px 0;" ++ DQ ++ lit "><strong>" ++ [9989%N] ++
  lit " Freigeben:</strong></p>" ++ NL ++ lit "  <p style=" ++ DQ ++
  lit "margin:0 0 10px 0;" ++ DQ ++ lit ">" ++ NL ++ lit "    <a href=" ++ DQ.

Definition tpl_after_approve : jsstring :=
  DQ ++ lit " style=" ++ DQ ++
  lit "display:inline-block;background:#16a34a;color:white;text-dec" ++
  lit "oration:none;padding:10px 14px;border-radius:10px;font-weigh" ++
  lit "t:700;" ++ DQ ++ lit ">" ++ NL ++ lit "      Eintrag freigeben" ++
  NL ++ lit "    </a>" ++ NL ++ lit "  </p>" ++ NL ++ NL ++
  lit "  <p style=" ++ DQ ++ lit "margin:10px 0 6px 0;" ++ DQ ++
  lit "><strong>" ++ [10060%N] ++ lit " Ablehnen/L" ++ [246%N] ++
  lit "schen:</strong></p>" ++ NL ++ lit "  <p style=" ++ DQ ++
  lit "margin:0 0 14px 0;" ++ DQ ++ lit ">" ++ NL ++ lit "    <a href=" ++ DQ.

Definition tpl_tail : jsstring :=
  DQ ++ lit " style=" ++ DQ ++
  lit "display:inline-block;background:#dc2626;color:white;text-dec" ++
  lit "oration:none;padding:10px 14px;border-radius:10px;font-weigh" ++
  lit "t:700;" ++ DQ ++ lit ">" ++ NL ++ lit "      Eintrag ablehnen" ++ NL ++
  lit "    </a>" ++ NL ++ lit "  </p>" ++ NL ++ NL ++ lit "  <p style=" ++
  DQ ++ lit "margin:0;color:#6b7280;font-size:12px;" ++ DQ ++ lit ">" ++ NL ++
  lit "    Hinweis: Bitte nur klicken, wenn du den Eintrag wirklich" ++
  lit " so ver" ++ [246%N] ++ lit "ffentlichen willst." ++ NL ++
  lit "  </p>" ++ NL ++ lit "</div>" ++ NL.

(** ** The application *)

Section App.

Variable cfg : Config.

(** [hasSmtp()] *)
Definition hasSmtp : bool :=
  let host := trim (envString (SMTP_HOST cfg)) in
  let user := trim (envString (SMTP_USER cfg)) in
  let pass := trim (envString (SMTP_PASS cfg)) in
  negb (isEmpty host) && negb (isEmpty user) && negb (isEmpty pass).

(** [buildMailHtml({name, message, created_at, approve_url, reject_url})] *)
Definition buildMailHtml (name message created_at approve_url reject_url
    : jsstring) : jsstring :=
  trim (tpl_head ++ escapeHtml name ++
        tpl_after_name ++ escapeHtml message ++
        tpl_after_message ++ escapeHtml created_at ++
        tpl_after_time ++ approve_url ++
        tpl_after_approve ++ reject_url ++
        tpl_tail).

(** [sendModerationMail(entry)]: how the awaited call ends, and the
    messages handed to the transport. *)
Definition sendModerationMail (amb : Ambient) (id : Z)
    (name message created_at : jsstring) : Completion * list Mail.t :=
  if negb hasSmtp then (Fulfilled, [])
  else
    match encodeURIComponent (ADMIN_TOKEN cfg) with
    | None => (Rejected (mkError [] (lit "URI malformed")), [])
    | Some token =>
        let approve_url :=
          PUBLIC_BASE_URL cfg ++ lit "/admin/approve?id=" ++
          decimalOfZ id ++ lit "&token=" ++ token in
        let reject_url :=
          PUBLIC_BASE_URL cfg ++ lit "/admin/reject?id=" ++
          decimalOfZ id ++ lit "&token=" ++ token in
        let m :=
          Mail.mk (MAIL_FROM cfg) (MAIL_TO cfg) MAIL_SUBJECT
            (buildMailHtml name message created_at approve_url
               reject_url) in
        (sendMail amb m, [m])
    end.

(** [requireAdmin(req, res, next)]: [next] is the rest of the route. *)
Definition presentedToken (req : Request) : JsVal :=
  js_or (query_token req)
    match header_authorization req with
    | Some h =>
        if negb (isEmpty h) && startsWith (lit "Bearer ") h
        then VString (skipn 7 h)
        else VNull
    | None => VNull
    end.

Definition requireAdmin (req : Request) (db : Db) (next : Outcome)
    : Outcome :=
  let token := presentedToken req in
  if negb (strictEqString token (ADMIN_TOKEN cfg))
  then mkOutcome db (mkResponse 401 (Text (lit "Unauthorized"))) []
  else next.

(** [app.get("/api/entries", ...)] *)
Definition get_api_entries (db : Db) : Outcome :=
  let rows := stmtApproved db in
  mkOutcome db (mkResponse 200 (JsonRows rows)) [].

(** [app.post("/api/entries", ...)] *)
Definition post_api_entries (amb : Ambient) (req : Request) (db : Db)
    : Outcome :=
  let name := cleanText (body_name req) 40 in
  let message := cleanText (body_message req) 400 in
  if isEmpty name || isEmpty message
  then mkOutcome db
         (mkResponse 400
            (JsonFail (lit "Name und Nachricht sind Pflicht."))) []
  else
    let created_at := nowIso amb in
    let (db1, lastInsertRowid) := stmtInsert db name message created_at in
    let (mailed, dispatched) :=
      sendModerationMail amb lastInsertRowid name message created_at in
    let logged :=
      match mailed with
      | Fulfilled => ConsoleLog (LOG_MAIL_SENT lastInsertRowid)
      | Rejected e =>
          ConsoleError [lit "Mail error:"; err_code e; err_message e]
      end in
    mkOutcome db1 (mkResponse 200 (JsonOk lastInsertRowid))
      (map MailDispatched dispatched ++ [logged]).

(** [app.get("/admin/pending", requireAdmin, ...)] *)
Definition get_admin_pending (req : Request) (db : Db) : Outcome :=
  requireAdmin req db
    (let rows := stmtPending db in
     mkOutcome db (mkResponse 200 (JsonEntries rows)) []).

(** [app.get("/admin/approve", requireAdmin, ...)] *)
Definition get_admin_approve (req : Request) (db : Db) : Outcome :=
  requireAdmin req db
    (let id := ToNumber (query_id req) in
     if numberIsFalsy id
     then mkOutcome db (mkResponse 400 (Text (lit "Missing id"))) []
     else mkOutcome (stmtSetStatus db id approved)
            (mkResponse 200 (Text TEXT_APPROVED)) []).

(** [app.get("/admin/reject", requireAdmin, ...)] *)
Definition get_admin_reject (req : Request) (db : Db) : Outcome :=
  requireAdmin req db
    (let id := ToNumber (query_id req) in
     if numberIsFalsy id
     then mkOutcome db (mkResponse 400 (Text (lit "Missing id"))) []
     else mkOutcome (stmtSetStatus db id rejected)
            (mkResponse 200 (Text TEXT_REJECTED)) []).

(** The router. *)
Definition handle (route : Route) (amb : Ambient) (req : Request)
    (db : Db) : Outcome :=
  match route with
  | GET_api_entries => get_api_entries db
  | POST_api_entries => post_api_entries amb req db
  | GET_admin_pending => get_admin_pending req db
  | GET_admin_approve => get_admin_approve req db
  | GET_admin_reject => get_admin_reject req db
  end.

(** The states of the store that the application can reach from a fresh
    database file. *)
Inductive reachable : Db -> Prop :=
| reachable_fresh : reachable emptyDb
| reachable_step (route : Route) (amb : Ambient) (req : Request)
    (db : Db) :
    reachable db -> reachable (db_after (handle route amb req db)).

End App.

(** ** The text normalization policy, as the specification words it

    "Trim leading/trailing whitespace, collapse internal whitespace runs
    to a single space, truncate to the field's maximum length."  These
    definitions follow that sentence and are compared with [cleanText]
    below. *)
Module Policy.

Definition stripLeading (s : jsstring) : jsstring :=
  match find (fun c => negb (isWhiteSpace c)) s with
  | None => []
  | Some _ =>
      (fix drop (t : jsstring) : jsstring :=
         match t with
         | c :: r => if isWhiteSpace c then drop r else t
         | [] => []
         end) s
  end.

(** A trailing character is kept unless it is white space with nothing
    kept after it. *)
Definition stripTrailing (s : jsstring) : jsstring :=
  fold_right
    (fun c kept => if isWhiteSpace c && isEmpty kept then [] else c :: kept)
    [] s.

(** One automaton step per character: a white-space character yields a
    space when it opens a run and nothing when it continues one. *)
Fixpoint collapseRuns (inRun : bool) (s : jsstring) : jsstring :=
  match s with
  | [] => []
  | c :: r =>
      if isWhiteSpace c
      then (if inRun then [] else [SPACE]) ++ collapseRuns true r
      else c :: collapseRuns false r
  end.

Definition collapsed (s : jsstring) : jsstring :=
  collapseRuns false (stripTrailing (stripLeading s)).


(** "Empty or whitespace-only". *)
Definition blank (s : jsstring) : bool := forallb isWhiteSpace s.

End Policy.

(** ** Definitions used in the statements *)

Definition isAdminRoute (route : Route) : bool :=
  match route with
  | GET_admin_pending | GET_admin_approve | GET_admin_reject => true
  | GET_api_entries | POST_api_entries => false
  end.

Definition unauthorized (db : Db) : Outcome :=
  mkOutcome db (mkResponse 401 (Text (lit "Unauthorized"))) [].

Definition missingId (db : Db) : Outcome :=
  mkOutcome db (mkResponse 400 (Text (lit "Missing id"))) [].


(** "Unconfigured": the host, the user or the credential is missing or
    white space only. *)
Definition smtpUnconfigured (cfg : Config) : bool :=
  Policy.blank (envString (SMTP_HOST cfg))
  || Policy.blank (envString (SMTP_USER cfg))
  || Policy.blank (envString (SMTP_PASS cfg)).

(** Row ids are distinct, start at 1 and never exceed the AUTOINCREMENT
    counter. *)
Definition wfDb (db : Db) : Prop :=
  NoDup (map Entry.id (entries db)) /\
  (0 <= sqlite_sequence db)%Z /\
  forall e, In e (entries db) -> (1 <= Entry.id e <= sqlite_sequence db)%Z.

(** [a] is listed before [b]: its id is larger. *)
Definition newer (a b : Entry.t) : Prop := (Entry.id b < Entry.id a)%Z.

Definition rowNewer (a b : PublicRow.t) : Prop :=
  (PublicRow.id b < PublicRow.id a)%Z.





(** Sample data for the concrete instances below. *)
Module Sample.

Definition cfg : Config :=
  mkConfig (lit "http://localhost:3000") (lit "DEV_TOKEN_CHANGE_ME")
    (lit "info@diebausteinklemmer.de")
    (lit "Die Bausteinklemmer <noreply@diebausteinklemmer.de>")
    (Some (lit "smtp.example.org")) (Some (lit "mailer")) (Some (lit "pw")).

(** The same configuration with a white-space-only SMTP host. *)
Definition cfgNoSmtp : Config :=
  mkConfig (PUBLIC_BASE_URL cfg) (ADMIN_TOKEN cfg) (MAIL_TO cfg)
    (MAIL_FROM cfg) (Some (lit "   ")) (SMTP_USER cfg) (SMTP_PASS cfg).

Definition now : jsstring := lit "2024-05-01T10:00:00.000Z".

(** A transport that rejects every message. *)
Definition failing : Ambient :=
  mkAmbient now
    (fun _ => Rejected (mkError (lit "ECONNREFUSED") (lit "connect failed"))).

Definition delivering : Ambient := mkAmbient now (fun _ => Fulfilled).

Definition submit (name message : JsVal) : Request :=
  mkRequest VUndefined VUndefined None name message.

Definition admin (token id : JsVal) : Request :=
  mkRequest token id None VUndefined VUndefined.

Definition goodToken : JsVal := VString (ADMIN_TOKEN cfg).

Definition entry (id : Z) (st : Status) : Entry.t :=
  Entry.mk id (lit "A B") (lit "Hello world") st now.

End Sample.

(** A store reached by one submission followed by its rejection. *)
Definition rejectedOnce : Db :=
  db_after (handle Sample.cfg GET_admin_reject Sample.delivering
              (Sample.admin Sample.goodToken (VString (lit "1")))
              (db_after (handle Sample.cfg POST_api_entries Sample.delivering
                           (Sample.submit (VString (lit "A B"))
                                          (VString (lit "Hello world")))
                           emptyDb))).

(** A store reached by two submissions, of which the second is approved. *)
Definition oneApproved : Db :=
  db_after (handle Sample.cfg GET_admin_approve Sample.delivering
    (Sample.admin Sample.goodToken (VString (lit "2")))
    (db_after (handle Sample.cfg POST_api_entries Sample.failing
      (Sample.submit (VString (lit "A B")) (VString (lit "Hello world")))
      (db_after (handle Sample.cfg POST_api_entries Sample.failing
        (Sample.submit (VString (lit "A B")) (VString (lit "Hello world")))
        emptyDb))))).

(** * Properties *)

Example cleanText_name_example :
  cleanText (VString (lit "  A   B  ")) 40 = lit "A B".
Proof. reflexivity. Qed.

(** ** Strings and normalization *)


Lemma trimStart_blank (l : jsstring) :
  forallb isWhiteSpace l = true -> trimStart l = [].
Proof.
  induction l as [|a l IH]; simpl; [reflexivity|].
  destruct (isWhiteSpace a); simpl; [exact IH | discriminate].
Qed.

Lemma trimStart_nil_blank (l : jsstring) :
  trimStart l = [] -> forallb isWhiteSpace l = true.
Proof.
  induction l as [|a l IH]; simpl; [reflexivity|].
  destruct (isWhiteSpace a); simpl; [exact IH | discriminate].
Qed.

Lemma forallb_rev (A : Type) (f : A -> bool) (l : list A) :
  forallb f (rev l) = forallb f l.
Proof.
  induction l as [|a l IH]; simpl; [reflexivity|].
  rewrite forallb_app, IH. simpl. rewrite andb_true_r. apply andb_comm.
Qed.










Lemma trimStart_head (s r : jsstring) (c : codeunit) :
  trimStart s = c :: r -> isWhiteSpace c = false.
Proof.
  induction s as [|a s IH]; simpl; [discriminate|].
  destruct (isWhiteSpace a) eqn:W; [exact IH|].
  intros E. injection E as <- _. exact W.
Qed.



Lemma trimEnd_nil (s : jsstring) :
  trimEnd s = [] -> forallb isWhiteSpace s = true.
Proof.
  unfold trimEnd. intros E.
  apply (f_equal (@rev _)) in E. rewrite rev_involutive in E. simpl in E.
  apply trimStart_nil_blank in E. rewrite forallb_rev in E. exact E.
Qed.

Lemma trim_nil_iff (s : jsstring) :
  trim s = [] <-> Policy.blank s = true.
Proof.
  unfold trim, Policy.blank. split.
  - intros E. apply trimEnd_nil in E.
    destruct (trimStart s) as [|c r] eqn:T.
    + exact (trimStart_nil_blank _ T).
    + apply trimStart_head in T. simpl in E. rewrite T in E. discriminate.
  - intros B. rewrite (trimStart_blank _ B). reflexivity.
Qed.


(** ** The store *)

Lemma largestRowid_bounds (db : Db) :
  (sqlite_sequence db <= largestRowid db)%Z /\
  forall e, In e (entries db) -> (Entry.id e <= largestRowid db)%Z.
Proof.
  unfold largestRowid. destruct db as [l s]. simpl.
  induction l as [|a l [IH1 IH2]]; simpl.
  - split; [lia | tauto].
  - split; [lia|]. intros e [<- | H]; [lia|]. specialize (IH2 e H). lia.
Qed.

Lemma stmtInsert_eq (db : Db) (n m t : jsstring) :
  stmtInsert db n m t =
  (mkDb (entries db ++ [Entry.mk (largestRowid db + 1) n m pending t])
        (largestRowid db + 1),
   (largestRowid db + 1)%Z).
Proof. reflexivity. Qed.

(** ** Submission *)

Section Submission.

Variable cfg : Config.
Variable amb : Ambient.
Variable req : Request.
Variable db : Db.

Let name := cleanText (body_name req) 40.
Let message := cleanText (body_message req) 400.


Lemma post_api_entries_valid :
  isEmpty name || isEmpty message = false ->
  let rowid := (largestRowid db + 1)%Z in
  db_after (post_api_entries cfg amb req db) =
    mkDb (entries db ++ [Entry.mk rowid name message pending (nowIso amb)])
         rowid /\
  response (post_api_entries cfg amb req db) =
    mkResponse 200 (JsonOk rowid).
Proof.
  unfold post_api_entries. fold name message. intros ->.
  rewrite stmtInsert_eq.
  destruct (sendModerationMail _ _ _ _ _ _) as [mailed dispatched].
  split; reflexivity.
Qed.

End Submission.





(** C10: [cleanText] is not idempotent.  The name made of 39 letters, a
    space and one more letter is longer than 40 characters after
    collapsing; its stored form is cut after the space, so it ends in
    white space, and normalizing the stored form again gives a different
    string. *)
Theorem cleanText_not_idempotent :
  exists s : jsstring,
    let stored := cleanText (VString s) 40 in
    (40 < length (Policy.collapsed s))%nat /\
    (exists p, stored = p ++ [SPACE]) /\
    cleanText (VString stored) 40 <> stored.
Proof.
  exists (repeat 97%N 39 ++ lit " b"). cbv zeta.
  split; [vm_compute; lia|]. split.
  - exists (repeat 97%N 39). vm_compute. reflexivity.
  - vm_compute. discriminate.
Qed.

(** ** Notification *)

Lemma isEmpty_trim (s : jsstring) : isEmpty (trim s) = Policy.blank s.
Proof.
  destruct (trim s) eqn:T; simpl.
  - symmetry. apply trim_nil_iff. exact T.
  - destruct (Policy.blank s) eqn:B; [|reflexivity].
    apply trim_nil_iff in B. congruence.
Qed.

Lemma hasSmtp_unconfigured (cfg : Config) :
  hasSmtp cfg = negb (smtpUnconfigured cfg).
Proof.
  unfold hasSmtp, smtpUnconfigured. rewrite !isEmpty_trim.
  rewrite !negb_orb. reflexivity.
Qed.

Lemma sendModerationMail_unconfigured (cfg : Config) (amb : Ambient)
    (id : Z) (n m t : jsstring) :
  smtpUnconfigured cfg = true ->
  sendModerationMail cfg amb id n m t = (Fulfilled, []).
Proof.
  intros U. unfold sendModerationMail.
  rewrite hasSmtp_unconfigured, U. reflexivity.
Qed.

(** C8: on a valid submission the response is 200 with the id of the new
    entry, which is in the store, whatever the mail configuration and
    whatever the transport does (in particular when it rejects every
    message); and when SMTP is unconfigured no message is handed to the
    transport at all. *)
Theorem mail_never_affects_submission (cfg : Config) (amb : Ambient)
    (req : Request) (db : Db) :
  cleanText (body_name req) 40 <> [] ->
  cleanText (body_message req) 400 <> [] ->
  let o := post_api_entries cfg amb req db in
  exists e : Entry.t,
    response o = mkResponse 200 (JsonOk (Entry.id e)) /\
    In e (entries (db_after o)) /\
    ~ In e (entries db) /\
    (forall (cfg' : Config) (transport : Mail.t -> Completion),
       let o' := post_api_entries cfg' (mkAmbient (nowIso amb) transport)
                   req db in
       response o' = response o /\ db_after o' = db_after o) /\
    (smtpUnconfigured cfg = true ->
     forall m : Mail.t, ~ In (MailDispatched m) (effects o)).
Proof.
  intros Hn Hm o.
  assert (V : isEmpty (cleanText (body_name req) 40)
              || isEmpty (cleanText (body_message req) 400) = false).
  { destruct (cleanText (body_name req) 40); [congruence|].
    destruct (cleanText (body_message req) 400); [congruence|]. reflexivity. }
  destruct (post_api_entries_valid cfg amb req db V) as [Hdb Hresp].
  fold o in Hdb, Hresp.
  exists (Entry.mk (largestRowid db + 1) (cleanText (body_name req) 40)
            (cleanText (body_message req) 400) pending (nowIso amb)).
  rewrite Hdb, Hresp. cbn [entries Entry.id].
  split; [reflexivity|]. split; [apply in_or_app; right; left; reflexivity|].
  refine (conj _ (conj _ _)).
  - intros Hin. pose proof (proj2 (largestRowid_bounds db) _ Hin) as B.
    cbn [Entry.id] in B. lia.
  - intros cfg' transport.
    destruct (post_api_entries_valid cfg' (mkAmbient (nowIso amb) transport)
                req db V) as [Hdb' Hresp'].
    rewrite Hdb', Hresp'. split; reflexivity.
  - intros U m. subst o. unfold post_api_entries. rewrite V.
    rewrite stmtInsert_eq, (sendModerationMail_unconfigured _ _ _ _ _ _ U).
    simpl. intros [H | []]. discriminate.
Qed.

Lemma mail_never_affects_submission_witness :
  response (post_api_entries Sample.cfg Sample.failing
              (Sample.submit (VString (lit "Ann")) (VString (lit "Hi")))
              emptyDb) = mkResponse 200 (JsonOk 1) /\
  exists e : Entry.t,
    In e (entries (db_after
            (post_api_entries Sample.cfg Sample.failing
               (Sample.submit (VString (lit "Ann")) (VString (lit "Hi")))
               emptyDb))).
Proof.
  split; [reflexivity|].
  destruct (mail_never_affects_submission Sample.cfg Sample.failing
              (Sample.submit (VString (lit "Ann")) (VString (lit "Hi")))
              emptyDb) as (e & _ & Hin & _).
  - discriminate.
  - discriminate.
  - exists e. exact Hin.
Defined.

(** With SMTP configured and a transport that rejects, the failure shows
    in the log only. *)
Example failing_transport_is_logged :
  let o := post_api_entries Sample.cfg Sample.failing
             (Sample.submit (VString (lit "Ann")) (VString (lit "Hi")))
             emptyDb in
  response o = mkResponse 200 (JsonOk 1) /\
  (exists m, effects o =
     [MailDispatched m;
      ConsoleError [lit "Mail error:"; lit "ECONNREFUSED";
                    lit "connect failed"]]) /\
  effects (post_api_entries Sample.cfgNoSmtp Sample.failing
             (Sample.submit (VString (lit "Ann")) (VString (lit "Hi")))
             emptyDb) = [ConsoleLog (LOG_MAIL_SENT 1)].
Proof.
  cbv zeta. split; [reflexivity|]. split; [|vm_compute; reflexivity].
  eexists. vm_compute. reflexivity.
Qed.

(** ** The admin gate *)

Lemma jsstring_eqb_eq (a b : jsstring) : jsstring_eqb a b = true <-> a = b.
Proof.
  unfold jsstring_eqb. destruct (jsstring_eq_dec a b); split; congruence.
Qed.

Lemma strictEqString_iff (v : JsVal) (s : jsstring) :
  strictEqString v s = true <-> v = VString s.
Proof.
  destruct v; simpl; try (split; [discriminate | congruence]).
  rewrite jsstring_eqb_eq. split; congruence.
Qed.

Lemma requireAdmin_denied (cfg : Config) (req : Request) (db : Db)
    (next : Outcome) :
  presentedToken req <> VString (ADMIN_TOKEN cfg) ->
  requireAdmin cfg req db next = unauthorized db.
Proof.
  intros H. unfold requireAdmin.
  destruct (strictEqString _ _) eqn:E; [|reflexivity].
  apply strictEqString_iff in E. contradiction.
Qed.

Lemma requireAdmin_granted (cfg : Config) (req : Request) (db : Db)
    (next : Outcome) :
  presentedToken req = VString (ADMIN_TOKEN cfg) ->
  requireAdmin cfg req db next = next.
Proof.
  intros H. unfold requireAdmin.
  rewrite (proj2 (strictEqString_iff _ _) H). reflexivity.
Qed.

Lemma startsWith_app (p s : jsstring) : startsWith p (p ++ s) = true.
Proof.
  induction p as [|a p IH]; simpl; [reflexivity|].
  rewrite N.eqb_refl. exact IH.
Qed.

(** C3: an admin route (list pending, approve, reject) called with a
    presented token that is not the string [ADMIN_TOKEN] answers 401
    "Unauthorized", leaves the store as it was and has no other effect.
    The presented token is the query parameter when that is non-empty,
    otherwise what follows "Bearer " in the authorization header, and
    otherwise absent ([null]). *)
Theorem admin_gate :
  (forall (cfg : Config) (route : Route) (amb : Ambient) (req : Request)
          (db : Db),
     isAdminRoute route = true ->
     presentedToken req <> VString (ADMIN_TOKEN cfg) ->
     handle cfg route amb req db = unauthorized db) /\
  (forall (req : Request) (t : jsstring),
     query_token req = VString t -> t <> [] ->
     presentedToken req = VString t) /\
  (forall (req : Request) (t : jsstring),
     ToBoolean (query_token req) = false ->
     header_authorization req = Some (lit "Bearer " ++ t) ->
     presentedToken req = VString t) /\
  (forall (req : Request),
     ToBoolean (query_token req) = false ->
     (forall h, header_authorization req = Some h ->
                startsWith (lit "Bearer ") h = false) ->
     presentedToken req = VNull).
Proof.
  refine (conj _ (conj _ (conj _ _))).
  - intros cfg route amb req db Hr Ht.
    destruct route; try discriminate; simpl;
      unfold get_admin_pending, get_admin_approve, get_admin_reject;
      apply requireAdmin_denied; exact Ht.
  - intros req t Hq Hne. unfold presentedToken, js_or. rewrite Hq.
    destruct t; [congruence | reflexivity].
  - intros req t Hq Hh. unfold presentedToken, js_or. rewrite Hq, Hh.
    rewrite startsWith_app. reflexivity.
  - intros req Hq Hh. unfold presentedToken, js_or. rewrite Hq.
    destruct (header_authorization req) as [h|]; [|reflexivity].
    rewrite (Hh h eq_refl), andb_false_r. reflexivity.
Qed.

Lemma admin_gate_witness :
  handle Sample.cfg GET_admin_approve Sample.delivering
    (Sample.admin (VString (lit "guess")) (VString (lit "1")))
    (mkDb [Sample.entry 1 pending] 1) =
  unauthorized (mkDb [Sample.entry 1 pending] 1) /\
  presentedToken (Sample.admin (VString (lit "abc")) VUndefined) =
    VString (lit "abc") /\
  presentedToken
    (mkRequest VUndefined VUndefined (Some (lit "Bearer abc")) VUndefined
       VUndefined) = VString (lit "abc") /\
  presentedToken
    (mkRequest VUndefined VUndefined (Some (lit "Basic abc")) VUndefined
       VUndefined) = VNull.
Proof.
  destruct admin_gate as (G1 & G2 & G3 & G4).
  refine (conj _ (conj _ (conj _ _))).
  - apply G1; [reflexivity | discriminate].
  - apply G2; [reflexivity | discriminate].
  - apply G3; reflexivity.
  - apply G4; [reflexivity|]. intros h E. injection E as <-. reflexivity.
Defined.

(** With the right token the gate lets the request through. *)
Lemma admin_gate_open (cfg : Config) (route : Route) (amb : Ambient)
    (req : Request) (db : Db) :
  presentedToken req = VString (ADMIN_TOKEN cfg) ->
  statusCode (response (handle cfg route amb req db)) <> 401%nat.
Proof.
  intros H. destruct route; simpl.
  - discriminate.
  - unfold post_api_entries.
    destruct (isEmpty _ || isEmpty _); [discriminate|].
    rewrite stmtInsert_eq.
    destruct (sendModerationMail _ _ _ _ _ _). discriminate.
  - unfold get_admin_pending. rewrite requireAdmin_granted by exact H.
    discriminate.
  - unfold get_admin_approve. rewrite requireAdmin_granted by exact H.
    destruct (numberIsFalsy _); discriminate.
  - unfold get_admin_reject. rewrite requireAdmin_granted by exact H.
    destruct (numberIsFalsy _); discriminate.
Qed.

(** ** Moderation: approve and reject *)

Lemma stmtSetStatus_ids (db : Db) (id : JsNumber) (st : Status) :
  map Entry.id (entries (stmtSetStatus db id st)) = map Entry.id (entries db).
Proof.
  unfold stmtSetStatus. cbn [entries]. rewrite map_map.
  apply map_ext. intros e. destruct (numberEqInteger id (Entry.id e));
    reflexivity.
Qed.

Lemma stmtSetStatus_absent (db : Db) (id : JsNumber) (st : Status) :
  (forall e, In e (entries db) -> numberEqInteger id (Entry.id e) = false) ->
  stmtSetStatus db id st = db.
Proof.
  intros H. destruct db as [l s]. unfold stmtSetStatus. cbn [entries] in *.
  cbn [sqlite_sequence]. f_equal.
  rewrite <- (map_id l) at 2. apply map_ext_in. intros e He.
  rewrite (H e He). reflexivity.
Qed.

Lemma stmtSetStatus_twice (db : Db) (id : JsNumber) (st : Status) :
  stmtSetStatus (stmtSetStatus db id st) id st = stmtSetStatus db id st.
Proof.
  unfold stmtSetStatus. cbn [entries sqlite_sequence]. f_equal.
  rewrite map_map. apply map_ext. intros e.
  destruct (numberEqInteger id (Entry.id e)) eqn:E.
  - cbn [Entry.with_status Entry.id]. rewrite E. reflexivity.
  - rewrite E. reflexivity.
Qed.

Lemma stmtSetStatus_In (db : Db) (id : JsNumber) (st : Status) (x : Entry.t) :
  In x (entries (stmtSetStatus db id st)) <->
  exists e, In e (entries db) /\
    x = if numberEqInteger id (Entry.id e) then Entry.with_status st e else e.
Proof.
  unfold stmtSetStatus. cbn [entries]. rewrite in_map_iff.
  split; intros (e & A & B); exists e; (split; [congruence || exact B | ]);
    congruence || exact A.
Qed.

(** Behind the gate, approve and reject differ in the status and the
    confirmation text only. *)
Lemma moderation_granted (cfg : Config) (req : Request) (db : Db) :
  presentedToken req = VString (ADMIN_TOKEN cfg) ->
  let id := ToNumber (query_id req) in
  get_admin_approve cfg req db =
    (if numberIsFalsy id then missingId db
     else mkOutcome (stmtSetStatus db id approved)
            (mkResponse 200 (Text TEXT_APPROVED)) []) /\
  get_admin_reject cfg req db =
    (if numberIsFalsy id then missingId db
     else mkOutcome (stmtSetStatus db id rejected)
            (mkResponse 200 (Text TEXT_REJECTED)) []).
Proof.
  intros Ht id. unfold get_admin_approve, get_admin_reject.
  rewrite !requireAdmin_granted by exact Ht. split; reflexivity.
Qed.




(** ** Invariant of the reachable stores *)

Lemma wfDb_empty : wfDb emptyDb.
Proof.
  unfold wfDb, emptyDb. cbn [entries sqlite_sequence map].
  split; [constructor|]. split; [lia|]. intros e [].
Qed.

Lemma largestRowid_wf (db : Db) :
  wfDb db -> largestRowid db = sqlite_sequence db.
Proof.
  intros (_ & _ & B). unfold largestRowid. destruct db as [l s].
  cbn [entries sqlite_sequence] in *.
  induction l as [|a l IH]; simpl; [reflexivity|].
  rewrite IH by (intros e He; apply B; right; exact He).
  pose proof (B a (or_introl eq_refl)). lia.
Qed.

Lemma wfDb_insert (db : Db) (n m t : jsstring) :
  wfDb db -> wfDb (fst (stmtInsert db n m t)).
Proof.
  intros W. rewrite stmtInsert_eq. cbn [fst].
  rewrite (largestRowid_wf db W). destruct W as (ND & S0 & B).
  unfold wfDb. cbn [entries sqlite_sequence]. repeat split.
  - rewrite map_app. simpl.
    apply NoDup_app; [exact ND | repeat constructor; intros [] |].
    intros z Hz [<- | []]. apply in_map_iff in Hz as (e & Ee & He).
    specialize (B e He). lia.
  - lia.
  - apply in_app_or in H as [He | [<- | []]]; [|simpl; lia].
    specialize (B e He). lia.
  - apply in_app_or in H as [He | [<- | []]]; [|simpl; lia].
    specialize (B e He). lia.
Qed.

Lemma wfDb_setStatus (db : Db) (id : JsNumber) (st : Status) :
  wfDb db -> wfDb (stmtSetStatus db id st).
Proof.
  intros (ND & S0 & B). unfold wfDb. rewrite stmtSetStatus_ids.
  split; [exact ND|]. split; [exact S0|].
  intros x Hx. apply stmtSetStatus_In in Hx as (e & He & ->).
  cbn [stmtSetStatus sqlite_sequence]. specialize (B e He).
  destruct (numberEqInteger id (Entry.id e)); exact B.
Qed.

Lemma handle_preserves_wf (cfg : Config) (route : Route) (amb : Ambient)
    (req : Request) (db : Db) :
  wfDb db -> wfDb (db_after (handle cfg route amb req db)).
Proof.
  intros W. destruct route; simpl.
  - exact W.
  - unfold post_api_entries.
    destruct (isEmpty _ || isEmpty _); [exact W|].
    pose proof (wfDb_insert db (cleanText (body_name req) 40)
                  (cleanText (body_message req) 400) (nowIso amb) W) as W'.
    destruct (stmtInsert db _ _ _) as [db1 rowid].
    destruct (sendModerationMail _ _ _ _ _ _). exact W'.
  - unfold get_admin_pending, requireAdmin.
    destruct (negb _); exact W.
  - unfold get_admin_approve, requireAdmin.
    destruct (negb _); [exact W|].
    destruct (numberIsFalsy _); [exact W | apply wfDb_setStatus; exact W].
  - unfold get_admin_reject, requireAdmin.
    destruct (negb _); [exact W|].
    destruct (numberIsFalsy _); [exact W | apply wfDb_setStatus; exact W].
Qed.

Lemma reachable_wf (cfg : Config) (db : Db) : reachable cfg db -> wfDb db.
Proof.
  induction 1 as [|route amb req db _ IH].
  - exact wfDb_empty.
  - apply handle_preserves_wf. exact IH.
Qed.

Lemma numberEqInteger_truthy (x : JsNumber) (z : Z) :
  (1 <= z)%Z -> numberEqInteger x z = true -> numberIsFalsy x = false.
Proof.
  intros Hz. destruct x as [s|s| |s m e]; simpl; try discriminate.
  - intros E. apply Z.eqb_eq in E. lia.
  - reflexivity.
Qed.

Lemma rejectedOnce_reachable : reachable Sample.cfg rejectedOnce.
Proof. unfold rejectedOnce. do 2 apply reachable_step. apply reachable_fresh. Qed.

(** C6: in a reachable store, an authorized approve request whose id
    denotes a rejected entry answers with the confirmation and sets that
    entry's status to approved: rejection does not block a later
    approval. *)
Theorem approve_after_reject (cfg : Config) (req : Request) (db : Db)
    (e : Entry.t) :
  reachable cfg db ->
  In e (entries db) ->
  Entry.status e = rejected ->
  presentedToken req = VString (ADMIN_TOKEN cfg) ->
  numberEqInteger (ToNumber (query_id req)) (Entry.id e) = true ->
  let o := get_admin_approve cfg req db in
  response o = mkResponse 200 (Text TEXT_APPROVED) /\
  In (Entry.with_status approved e) (entries (db_after o)) /\
  (forall x, In x (entries (db_after o)) ->
             Entry.id x = Entry.id e -> Entry.status x = approved) /\
  In (Entry.id e) (map Entry.id (whereStatus approved (entries (db_after o)))).
Proof.
  intros R He Hs Ht Hid o.
  destruct (reachable_wf cfg db R) as (_ & _ & B).
  assert (T : numberIsFalsy (ToNumber (query_id req)) = false).
  { exact (numberEqInteger_truthy _ _ (proj1 (B e He)) Hid). }
  destruct (moderation_granted cfg req db Ht) as [Go _].
  rewrite T in Go. fold o in Go. rewrite Go. cbn [response db_after].
  assert (I : In (Entry.with_status approved e)
                 (entries (stmtSetStatus db (ToNumber (query_id req))
                             approved))).
  { apply stmtSetStatus_In. exists e. rewrite Hid. split; [exact He|].
    reflexivity. }
  split; [reflexivity|]. split; [exact I|]. split.
  - intros x Hx Hxe. apply stmtSetStatus_In in Hx as (y & Hy & ->).
    destruct (numberEqInteger _ (Entry.id y)) eqn:E; [reflexivity|].
    rewrite Hxe in E. congruence.
  - apply in_map_iff. exists (Entry.with_status approved e).
    split; [reflexivity|]. apply filter_In. split; [exact I | reflexivity].
Qed.

Lemma approve_after_reject_witness :
  In (Sample.entry 1 approved)
     (entries (db_after (get_admin_approve Sample.cfg
                           (Sample.admin Sample.goodToken (VString (lit "1")))
                           rejectedOnce))).
Proof.
  apply (approve_after_reject Sample.cfg
           (Sample.admin Sample.goodToken (VString (lit "1")))
           rejectedOnce (Sample.entry 1 rejected) rejectedOnce_reachable).
  - left. reflexivity.
  - reflexivity.
  - reflexivity.
  - reflexivity.
Defined.

(** C7: the status update is a no-op, and still answered with the
    confirmation, when no entry has the given id; and approving twice is
    idempotent: the second request gets the same response as the first,
    adds no row and leaves the store as the first one left it. *)
Theorem setStatus_noop_and_idempotent :
  (forall (cfg : Config) (req : Request) (db : Db),
     presentedToken req = VString (ADMIN_TOKEN cfg) ->
     numberIsFalsy (ToNumber (query_id req)) = false ->
     (forall e, In e (entries db) ->
        numberEqInteger (ToNumber (query_id req)) (Entry.id e) = false) ->
     get_admin_approve cfg req db =
       mkOutcome db (mkResponse 200 (Text TEXT_APPROVED)) [] /\
     get_admin_reject cfg req db =
       mkOutcome db (mkResponse 200 (Text TEXT_REJECTED)) []) /\
  (forall (cfg : Config) (req : Request) (db : Db),
     let first := get_admin_approve cfg req db in
     let second := get_admin_approve cfg req (db_after first) in
     db_after second = db_after first /\
     response second = response first /\
     map Entry.id (entries (db_after second)) = map Entry.id (entries db)) /\
  (forall (db : Db) (id : JsNumber) (st : Status),
     stmtSetStatus (stmtSetStatus db id st) id st = stmtSetStatus db id st).
Proof.
  refine (conj _ (conj _ _)).
  - intros cfg req db Ht Hid Habs.
    destruct (moderation_granted cfg req db Ht) as [-> ->].
    rewrite Hid, !stmtSetStatus_absent by exact Habs. split; reflexivity.
  - intros cfg req db first second. subst first second.
    unfold get_admin_approve, requireAdmin.
    destruct (negb (strictEqString _ _)) eqn:A; [repeat split|].
    destruct (numberIsFalsy _) eqn:F; cbn [db_after response];
      [repeat split|].
    rewrite stmtSetStatus_twice, stmtSetStatus_ids. repeat split.
  - exact stmtSetStatus_twice.
Qed.

Lemma setStatus_noop_and_idempotent_witness :
  get_admin_approve Sample.cfg
    (Sample.admin Sample.goodToken (VString (lit "7")))
    (mkDb [Sample.entry 1 pending] 1) =
  mkOutcome (mkDb [Sample.entry 1 pending] 1)
    (mkResponse 200 (Text TEXT_APPROVED)) [].
Proof.
  apply (proj1 setStatus_noop_and_idempotent Sample.cfg
           (Sample.admin Sample.goodToken (VString (lit "7")))
           (mkDb [Sample.entry 1 pending] 1)).
  - reflexivity.
  - reflexivity.
  - intros e [<- | []]. reflexivity.
Defined.

(** Approving a pending entry twice, concretely. *)
Example approve_twice :
  let db := mkDb [Sample.entry 1 pending; Sample.entry 2 pending] 2 in
  let req := Sample.admin Sample.goodToken (VString (lit "2")) in
  let first := get_admin_approve Sample.cfg req db in
  let second := get_admin_approve Sample.cfg req (db_after first) in
  entries (db_after first) = [Sample.entry 1 pending; Sample.entry 2 approved]
  /\ db_after second = db_after first
  /\ statusCode (response second) = 200%nat.
Proof. cbv zeta. repeat split. Qed.

(** ** The public listing *)

Lemma Status_eqb_eq (a b : Status) : Status_eqb a b = true <-> a = b.
Proof. destruct a, b; simpl; split; congruence. Qed.

Lemma whereStatus_In (st : Status) (l : list Entry.t) (e : Entry.t) :
  In e (whereStatus st l) <-> In e l /\ Entry.status e = st.
Proof. unfold whereStatus. rewrite filter_In, Status_eqb_eq. tauto. Qed.

Lemma insertByIdDesc_In (e x : Entry.t) (l : list Entry.t) :
  In x (insertByIdDesc e l) <-> x = e \/ In x l.
Proof.
  induction l as [|a l IH]; simpl.
  - intuition congruence.
  - destruct (Entry.id a <=? Entry.id e)%Z; simpl; [intuition congruence|].
    rewrite IH. intuition congruence.
Qed.

Lemma orderByIdDesc_In (x : Entry.t) (l : list Entry.t) :
  In x (orderByIdDesc l) <-> In x l.
Proof.
  induction l as [|a l IH]; simpl; [tauto|].
  rewrite insertByIdDesc_In, IH. intuition congruence.
Qed.

Lemma insertByIdDesc_length (e : Entry.t) (l : list Entry.t) :
  length (insertByIdDesc e l) = S (length l).
Proof.
  induction l as [|a l IH]; simpl; [reflexivity|].
  destruct (Entry.id a <=? Entry.id e)%Z; simpl; congruence.
Qed.

Lemma insertByIdDesc_sorted (e : Entry.t) (l : list Entry.t) :
  StronglySorted newer l ->
  (forall x, In x l -> Entry.id x <> Entry.id e) ->
  StronglySorted newer (insertByIdDesc e l).
Proof.
  induction 1 as [|a l S IH F]; intros D; simpl.
  - repeat constructor.
  - rewrite Forall_forall in F.
    destruct (Entry.id a <=? Entry.id e)%Z eqn:C.
    + apply Z.leb_le in C.
      assert (Entry.id a <> Entry.id e) by (apply D; left; reflexivity).
      constructor; [constructor; [exact S | apply Forall_forall; exact F]|].
      apply Forall_forall. intros x [<- | Hx]; unfold newer in *; [lia|].
      specialize (F x Hx). lia.
    + apply Z.leb_gt in C. constructor.
      * apply IH. intros x Hx. apply D. right. exact Hx.
      * apply Forall_forall. intros x Hx.
        apply insertByIdDesc_In in Hx as [-> | Hx]; [exact C | exact (F x Hx)].
Qed.

Lemma orderByIdDesc_sorted (l : list Entry.t) :
  NoDup (map Entry.id l) -> StronglySorted newer (orderByIdDesc l).
Proof.
  induction l as [|a l IH]; simpl; intros ND; [constructor|].
  inversion ND as [|z zs Hnotin ND']; subst.
  apply insertByIdDesc_sorted; [exact (IH ND')|].
  intros x Hx E. apply Hnotin. apply (proj1 (orderByIdDesc_In _ _)) in Hx.
  rewrite <- E. apply in_map. exact Hx.
Qed.

Lemma NoDup_ids_filter (f : Entry.t -> bool) (l : list Entry.t) :
  NoDup (map Entry.id l) -> NoDup (map Entry.id (filter f l)).
Proof.
  induction l as [|a l IH]; simpl; intros ND; [constructor|].
  inversion ND as [|z zs Hnotin ND']; subst.
  destruct (f a); simpl; [|exact (IH ND')].
  constructor; [|exact (IH ND')].
  intros Hin. apply Hnotin. apply in_map_iff in Hin as (x & E & Hx).
  apply filter_In in Hx as [Hx _]. rewrite <- E. apply in_map. exact Hx.
Qed.

Lemma NoDup_ids_inj (l : list Entry.t) (x y : Entry.t) :
  NoDup (map Entry.id l) -> In x l -> In y l ->
  Entry.id x = Entry.id y -> x = y.
Proof.
  induction l as [|a l IH]; simpl; intros ND Hx Hy E; [contradiction|].
  inversion ND as [|z zs Hnotin ND']; subst.
  destruct Hx as [-> | Hx], Hy as [-> | Hy].
  - reflexivity.
  - exfalso. apply Hnotin. rewrite E. apply in_map. exact Hy.
  - exfalso. apply Hnotin. rewrite <- E. apply in_map. exact Hx.
  - exact (IH ND' Hx Hy E).
Qed.

Lemma StronglySorted_firstn (A : Type) (R : A -> A -> Prop) (n : nat)
    (l : list A) :
  StronglySorted R l -> StronglySorted R (firstn n l).
Proof.
  intros S. revert n. induction S as [|a l S IH F]; intros [|n]; simpl;
    try constructor.
  - apply IH.
  - rewrite Forall_forall in *. intros x Hx. apply F.
    rewrite <- (firstn_skipn n l). apply in_or_app. left. exact Hx.
Qed.

Lemma StronglySorted_app_inv (A : Type) (R : A -> A -> Prop) (l1 l2 : list A) :
  StronglySorted R (l1 ++ l2) ->
  forall x y, In x l1 -> In y l2 -> R x y.
Proof.
  induction l1 as [|a l1 IH]; simpl; intros S x y Hx Hy; [contradiction|].
  inversion S as [|a' l' S' F]; subst. rewrite Forall_forall in F.
  destruct Hx as [<- | Hx].
  - apply F. apply in_or_app. right. exact Hy.
  - exact (IH S' x y Hx Hy).
Qed.

Lemma StronglySorted_rows (l : list Entry.t) :
  StronglySorted newer l ->
  StronglySorted rowNewer (map PublicRow.of_entry l).
Proof.
  induction 1 as [|a l S IH F]; simpl; constructor; [exact IH|].
  rewrite Forall_forall in *. intros r Hr.
  apply in_map_iff in Hr as (x & <- & Hx). exact (F x Hx).
Qed.

Lemma oneApproved_reachable : reachable Sample.cfg oneApproved.
Proof. unfold oneApproved. do 3 apply reachable_step. apply reachable_fresh. Qed.

(** C1: in every reachable store, [GET /api/entries] answers 200 with
    rows that are each the projection to id, name, message and created_at
    of an approved entry of the store; no row carries the id of a pending
    or rejected entry; the rows are in strictly descending order of id and
    there are at most 50 of them; and an approved entry is left out only
    when 50 rows with larger ids are listed. *)
Theorem public_listing (cfg : Config) (db : Db) :
  reachable cfg db ->
  let o := get_api_entries db in
  exists rows : list PublicRow.t,
    response o = mkResponse 200 (JsonRows rows) /\
    db_after o = db /\
    (forall r, In r rows ->
       exists e, In e (entries db) /\ Entry.status e = approved /\
                 r = PublicRow.of_entry e) /\
    (forall e, In e (entries db) -> Entry.status e <> approved ->
       forall r, In r rows -> PublicRow.id r <> Entry.id e) /\
    StronglySorted rowNewer rows /\
    (length rows <= 50)%nat /\
    (forall e, In e (entries db) -> Entry.status e = approved ->
       In (PublicRow.of_entry e) rows \/
       (length rows = 50%nat /\
        forall r, In r rows -> (Entry.id e < PublicRow.id r)%Z)).
Proof.
  intros R o. destruct (reachable_wf cfg db R) as (ND & _ & _).
  exists (stmtApproved db). split; [reflexivity|]. split; [reflexivity|].
  unfold stmtApproved.
  set (sorted := orderByIdDesc (whereStatus approved (entries db))).
  assert (Hin : forall x, In x sorted <->
                          In x (entries db) /\ Entry.status x = approved).
  { intros x. unfold sorted. rewrite orderByIdDesc_In. apply whereStatus_In. }
  assert (SS : StronglySorted newer sorted).
  { apply orderByIdDesc_sorted, NoDup_ids_filter. exact ND. }
  assert (Hfirst : forall x, In x (firstn 50 sorted) -> In x sorted).
  { intros x Hx. rewrite <- (firstn_skipn 50 sorted).
    apply in_or_app. left. exact Hx. }
  refine (conj _ (conj _ (conj _ (conj _ _)))).
  - intros r Hr. apply in_map_iff in Hr as (e & <- & He).
    apply Hfirst, Hin in He. exists e. tauto.
  - intros e He Hs r Hr E. apply in_map_iff in Hr as (x & <- & Hx).
    apply Hfirst, Hin in Hx. destruct Hx as [Hx Hxs]. cbn [PublicRow.of_entry
      PublicRow.id] in E.
    rewrite (NoDup_ids_inj (entries db) x e ND Hx He E) in Hxs. contradiction.
  - apply StronglySorted_rows, StronglySorted_firstn. exact SS.
  - rewrite length_map. apply firstn_le_length.
  - intros e He Hs.
    assert (Hes : In e sorted) by (apply Hin; tauto).
    rewrite <- (firstn_skipn 50 sorted) in Hes, SS.
    apply in_app_or in Hes as [Hf | Hk].
    + left. apply in_map. exact Hf.
    + right. split.
      * rewrite length_map. apply firstn_length_le.
        destruct (Nat.le_gt_cases 50 (length sorted)) as [L | L]; [exact L|].
        rewrite skipn_all2 in Hk by lia. contradiction.
      * intros r Hr. apply in_map_iff in Hr as (x & <- & Hx).
        exact (StronglySorted_app_inv _ _ _ _ SS x e Hx Hk).
Qed.

Lemma public_listing_witness :
  exists rows : list PublicRow.t,
    response (get_api_entries oneApproved) = mkResponse 200 (JsonRows rows) /\
    forall r, In r rows -> PublicRow.id r <> 1%Z.
Proof.
  destruct (public_listing Sample.cfg oneApproved oneApproved_reachable)
    as (rows & Hresp & _ & _ & Hhidden & _).
  exists rows. split; [exact Hresp|].
  apply (Hhidden (Sample.entry 1 pending)).
  - left. reflexivity.
  - discriminate.
Defined.

Example public_listing_example :
  stmtApproved oneApproved =
  [PublicRow.mk 2 (lit "A B") (lit "Hello world") Sample.now].
Proof. reflexivity. Qed.

(** ** Escaping *)



















Example escapeHtml_example :
  escapeHtml (lit "<a href='x'>Tom & Jerry</a>") =
  lit "&lt;a href=&#039;x&#039;&gt;Tom &amp; Jerry&lt;/a&gt;".
Proof. reflexivity. Qed.
